(** * LoaderInterface: a model of src/loader/LoaderInterface.py

    The Python module is a set of helpers over the host application's
    scripting API ([bpy]).  The development below embeds

    - the part of the host's data model the helpers read and write
      (datablocks with custom properties, selection flag, transform
      attributes and active material; mesh datablocks with their polygons;
      the material collection; the active object and the interaction mode);
    - the helpers themselves, written in a state-and-exception monad so that
      every definition can be read side by side with its Python source;
    - a log of the operator calls ([bpy.ops...]), each stamped with the mode
      and the active object at the time of the call, for the statements that
      are about the order of calls.

    Python exceptions leave the mutated state behind: an outcome is either a
    normal return or a raised exception, and both carry the state. *)

From stdpp Require Import base option list gmap strings.
From Stdlib Require Import String Ascii QArith.

Local Close Scope Q_scope.
Local Open Scope string_scope.
Local Open Scope list_scope.

(** ** Strings: the three [str] methods the module uses *)

(** [c.lower()] on one character.  Python lowers every cased code point;
    only the letters A-Z have an image among the ASCII letters of "flat"
    and "smooth", so for the two comparisons of [change_shading_mode] the
    byte-wise map below decides the same equalities. *)
Definition ascii_is_upper (c : ascii) : bool :=
  let n := nat_of_ascii c in (65 <=? n)%nat && (n <=? 90)%nat.

Definition ascii_lower (c : ascii) : ascii :=
  if ascii_is_upper c then ascii_of_nat (nat_of_ascii c + 32) else c.

(** [s.lower()] *)
Fixpoint lower (s : string) : string :=
  match s with
  | EmptyString => EmptyString
  | String c s' => String (ascii_lower c) (lower s')
  end.

(** [s[n:]] *)
Fixpoint str_drop (n : nat) (s : string) : string :=
  match n, s with
  | O, _ => s
  | S n', EmptyString => EmptyString
  | S n', String _ s' => str_drop n' s'
  end.

(** [key.startswith("cp_")] *)
Definition startswith_cp (key : string) : bool := String.prefix "cp_" key.

(** Case-insensitive comparison as the documentation words it (the
    available modes are written "FLAT" and "SMOOTH"): two strings have the
    same length and, position by position, the same character up to the case
    of a letter. *)
Definition same_letter (a b : ascii) : bool :=
  Ascii.eqb a b
  || (ascii_is_upper a && Ascii.eqb (ascii_lower a) b)
  || (ascii_is_upper b && Ascii.eqb a (ascii_lower b)).

Fixpoint caseless_eq (s t : string) : bool :=
  match s, t with
  | EmptyString, EmptyString => true
  | String a s', String b t' => same_letter a b && caseless_eq s' t'
  | _, _ => false
  end.

(** ** Exceptions *)

Inductive exn :=
  | Exception (msg : string)
  | RuntimeError (msg : string)
  | AttributeError (msg : string).

Definition msg_unknown_shading (mode : string) : string :=
  "This shading mode is unknown: " +:+ mode.

Definition msg_material_not_loaded (material_name : string) : string :=
  "Material " +:+ material_name +:+ " is not Loaded. Please load the material first".

Definition msg_only_custom_properties : string :=
  "Loader modules support setting only custom properties. Use 'cp_' prefix for keys. "
  +:+ "Use manipulators.Entity for setting object's attribute values.".

Definition msg_no_polygons : string := "object data has no attribute 'polygons'".

(** ** Numbers

    Coordinates and angles are the host's floats.  Their arithmetic, and the
    two numpy reductions the module calls, are taken as an interface: no
    statement below depends on how they round. *)
Class HostMath (F : Type) := {
  f_zero : F;                                   (* 0 *)
  f_one : F;                                    (* 1 *)
  f_half : F;                                   (* 0.5 *)
  np_pi : F;                                    (* np.pi *)
  f_mul : F -> F -> F;
  f_add : F -> F -> F;
  f_neg : F -> F;
  np_mean_axis0 : list (F * F * F) -> F * F * F;  (* np.mean(bb, axis=0) *)
  np_min_axis0 : list (F * F * F) -> F * F * F;   (* np.min(bb, axis=0) *)
  euler_rotate : F -> string -> F * F * F -> F * F * F
    (* what transform.rotate does to the rotation of an object in object mode *)
}.

(** The rationals, for running the model on examples: 22/7 stands in for
    pi, and the reductions are the exact mean and minimum. *)
Definition Q_sum3 (p q : Q * Q * Q) : Q * Q * Q :=
  (Qred (p.1.1 + q.1.1), Qred (p.1.2 + q.1.2), Qred (p.2 + q.2))%Q.

Definition Q_min (x y : Q) : Q := if Qle_bool x y then x else y.

Definition Q_min3 (p q : Q * Q * Q) : Q * Q * Q :=
  (Q_min p.1.1 q.1.1, Q_min p.1.2 q.1.2, Q_min p.2 q.2).

Definition Q_mean_axis0 (bb : list (Q * Q * Q)) : Q * Q * Q :=
  let n := inject_Z (Z.of_nat (List.length bb)) in
  let s := foldr Q_sum3 (0, 0, 0)%Q bb in
  (Qred (s.1.1 / n), Qred (s.1.2 / n), Qred (s.2 / n))%Q.

Definition Q_min_axis0 (bb : list (Q * Q * Q)) : Q * Q * Q :=
  match bb with
  | [] => (0, 0, 0)%Q
  | p :: ps => foldr Q_min3 p ps
  end.

#[export] Instance Q_HostMath : HostMath Q := {|
  f_zero := 0%Q; f_one := 1%Q; f_half := (1 # 2)%Q; np_pi := (22 # 7)%Q;
  f_mul := fun x y => Qred (x * y)%Q;
  f_add := fun x y => Qred (x + y)%Q;
  f_neg := fun x => Qred (- x)%Q;
  np_mean_axis0 := Q_mean_axis0;
  np_min_axis0 := Q_min_axis0;
  euler_rotate := fun v axis r =>
    if String.eqb axis "X" then (Qred (r.1.1 + v)%Q, r.1.2, r.2) else r
|}.

(** ** The host's data model *)

Inductive Mode := OBJECT | EDIT.

#[export] Instance Mode_eq_dec : EqDecision Mode.
Proof. solve_decision. Defined.

Section Model.
Context {F V : Type} `{HostMath F}.

Definition vec3 : Type := F * F * F.

(** What has been done to the geometry of a mesh, in order.  The geometry
    itself belongs to the host. *)
Inductive mesh_edit :=
  | Rotated (value : F) (orient_axis : string)        (* transform.rotate, edit mode *)
  | Translated (value : vec3)                         (* transform.translate, edit mode *)
  | Baked (location rotation scale : bool) (loc rot scl : vec3).  (* transform_apply *)

(** A mesh datablock: [polygons] lists [use_smooth] of every face. *)
Record Mesh := mkMesh {
  polygons : list bool;
  me_edits : list mesh_edit
}.

(** A datablock ([bpy.types.ID]) is an Object wrapping its data, or anything
    else (a material, a light, a camera, ...).  An Object has type 'MESH'
    exactly when its data is a mesh datablock: [KObject (Some m)] refers to
    mesh [m]; [KObject None] is an Object of any other type (an empty, a
    camera object, ...), whose data has no polygons. *)
Inductive id_kind :=
  | KObject (data : option nat)
  | KOther.

(** The attributes of a datablock the module touches.  Selection, transform
    and material belong to Objects; the custom properties ([obj[key]]) to
    every datablock. *)
Record ID := mkID {
  kind : id_kind;
  custom_props : gmap string V;
  select : bool;
  active_material : option nat;
  location : vec3;
  rotation_euler : vec3;
  scale : vec3
}.

(** Operator calls, as logged. *)
Inductive op_call :=
  | Op_select_all_DESELECT
  | Op_transform_apply (location rotation scale : bool)
  | Op_mode_set (mode : Mode)
  | Op_transform_rotate (value : F) (orient_axis : string)
  | Op_transform_translate (value : vec3)
  | Op_view_layer_update.

Record log_entry := mkLog {
  log_call : op_call;
  log_mode : Mode;             (* the mode when the operator was invoked *)
  log_active : option nat      (* the active object at that time *)
}.

(** The state of the host.  A Python reference to a datablock is its index
    in [ids]; a reference to a mesh its index in [meshes]; [materials] is
    [bpy.data.materials], from names to datablocks.  Every Object of the
    store is in the scene. *)
Record State := mkState {
  ids : list ID;
  meshes : list Mesh;
  materials : gmap string nat;
  active : option nat;         (* bpy.context.view_layer.objects.active *)
  mode : Mode;
  oplog : list log_entry
}.

Definition with_ids (f : list ID -> list ID) (st : State) : State :=
  mkState (f (ids st)) (meshes st) (materials st) (active st) (mode st) (oplog st).

Definition with_meshes (f : list Mesh -> list Mesh) (st : State) : State :=
  mkState (ids st) (f (meshes st)) (materials st) (active st) (mode st) (oplog st).

Definition with_active (a : option nat) (st : State) : State :=
  mkState (ids st) (meshes st) (materials st) a (mode st) (oplog st).


Definition with_oplog (f : list log_entry -> list log_entry) (st : State) : State :=
  mkState (ids st) (meshes st) (materials st) (active st) (mode st) (f (oplog st)).

(** ** The monad: state, and exceptions that keep the state *)

Inductive outcome (A : Type) :=
  | Return (a : A) (st : State)
  | Raised (e : exn) (st : State).
Arguments Return {A} a st.
Arguments Raised {A} e st.

Definition M (A : Type) : Type := State -> outcome A.

Definition ret {A} (a : A) : M A := fun st => Return a st.

Definition bind {A B} (c : M A) (k : A -> M B) : M B :=
  fun st =>
    match c st with
    | Return a st' => k a st'
    | Raised e st' => Raised e st'
    end.

Definition raise {A} (e : exn) : M A := fun st => Raised e st.
Definition gets {A} (f : State -> A) : M A := fun st => Return (f st) st.
Definition modify (f : State -> State) : M unit := fun st => Return tt (f st).

(** [for x in xs: body(x)] *)
Fixpoint for_each {X} (xs : list X) (body : X -> M unit) : M unit :=
  match xs with
  | [] => ret tt
  | x :: xs' => bind (body x) (fun _ => for_each xs' body)
  end.


Definition raises {A} (r : outcome A) : Prop :=
  match r with Return _ _ => False | Raised _ _ => True end.

End Model.

Arguments vec3 F : clear implicits.
Arguments mesh_edit F : clear implicits.
Arguments Mesh F : clear implicits.
Arguments ID F V : clear implicits.
Arguments op_call F : clear implicits.
Arguments log_entry F : clear implicits.
Arguments State F V : clear implicits.
Arguments outcome F V A : clear implicits.
Arguments M F V A : clear implicits.
Arguments Return {F V A} a st.
Arguments Raised {F V A} e st.

Notation "x <- c1 ;; c2" := (bind c1 (fun x => c2))
  (at level 100, c1 at next level, right associativity).
Notation "c1 ;; c2" := (bind c1 (fun _ => c2))
  (at level 100, right associativity).

(** ** The host's operations

    Each definition is one call of the scripting API, on the state above.
    The operators ([bpy.ops...]) are the host's, not the module's: what is
    modelled of them is the effect the module's own documentation relies on
    (lines 84-85, 137-138, 158-159), on their success path.  An operator is
    logged when invoked and then takes effect.  A reference is assumed to
    designate a live datablock: on an index outside the store an assignment
    changes nothing. *)
Section Host.
Context {F V : Type} `{HostMath F}.

Definition zero3 : vec3 F := (f_zero, f_zero, f_zero).
Definition one3 : vec3 F := (f_one, f_one, f_one).

Definition set_select (b : bool) (o : ID F V) : ID F V :=
  mkID (kind o) (custom_props o) b (active_material o)
       (location o) (rotation_euler o) (scale o).

Definition set_custom_prop (key : string) (value : V) (o : ID F V) : ID F V :=
  mkID (kind o) (<[key := value]> (custom_props o)) (select o) (active_material o)
       (location o) (rotation_euler o) (scale o).

Definition set_material (m : nat) (o : ID F V) : ID F V :=
  mkID (kind o) (custom_props o) (select o) (Some m)
       (location o) (rotation_euler o) (scale o).

Definition set_transform (loc rot scl : vec3 F) (o : ID F V) : ID F V :=
  mkID (kind o) (custom_props o) (select o) (active_material o) loc rot scl.

Definition add_edit (e : mesh_edit F) (me : Mesh F) : Mesh F :=
  mkMesh (polygons me) (me_edits me ++ [e]).

Definition set_polygon (i : nat) (b : bool) (me : Mesh F) : Mesh F :=
  mkMesh (<[i := b]> (polygons me)) (me_edits me).

Definition is_object (o : ID F V) : bool :=
  match kind o with KObject _ => true | KOther => false end.

(** the mesh datablock behind an Object, if its data is one *)
Definition mesh_of (o : ID F V) : option nat :=
  match kind o with KObject d => d | KOther => None end.

Definition log (c : op_call F) : M F V unit :=
  modify (fun st => with_oplog (fun l => l ++ [mkLog c (mode st) (active st)]) st).

(** [obj.select_set(b)] *)
Definition select_set (obj : nat) (b : bool) : M F V unit :=
  modify (with_ids (alter (set_select b) obj)).

(** [bpy.context.view_layer.objects.active = obj] *)
Definition set_active (obj : nat) : M F V unit :=
  modify (with_active (Some obj)).


(** [obj[key] = value] *)
Definition set_item (obj : nat) (key : string) (value : V) : M F V unit :=
  modify (with_ids (alter (set_custom_prop key value) obj)).

(** [obj.active_material = material] *)
Definition set_active_material (obj : nat) (material : nat) : M F V unit :=
  modify (with_ids (alter (set_material material) obj)).

(** [face.use_smooth = b], a face being a mesh and an index in its polygons *)
Definition set_use_smooth (face : nat * nat) (b : bool) : M F V unit :=
  modify (with_meshes (alter (set_polygon face.2 b) face.1)).

(** [hasattr(obj, 'type') and obj.type == 'MESH'] *)
Definition is_mesh_object (st : State F V) (obj : nat) : bool :=
  match ids st !! obj with
  | Some o => match mesh_of o with Some _ => true | None => false end
  | None => false
  end.

(** [isinstance(obj, bpy.types.Object)] *)
Definition isinstance_Object (st : State F V) (obj : nat) : bool :=
  match ids st !! obj with
  | Some o => is_object o
  | None => false
  end.

Definition faces_of (st : State F V) (m : nat) : list (nat * nat) :=
  match meshes st !! m with
  | Some me => pair m <$> seq 0 (List.length (polygons me))
  | None => []
  end.

(** [obj.data.polygons]: the faces of the mesh of [obj].  Data that is not a
    mesh (or no data at all) has no such attribute. *)
Definition obj_data_polygons (obj : nat) : M F V (list (nat * nat)) :=
  fun st =>
    match ids st !! obj with
    | Some o =>
        match mesh_of o with
        | Some m => Return (faces_of st m) st
        | None => Raised (AttributeError msg_no_polygons) st
        end
    | None => Raised (AttributeError msg_no_polygons) st
    end.

(** [bpy.ops.object.select_all(action='DESELECT')] *)
Definition bpy_ops_object_select_all_DESELECT : M F V unit :=
  log Op_select_all_DESELECT ;;
  modify (with_ids (fmap (set_select false))).

(** [bpy.ops.object.transform_apply(location, rotation, scale)]: for every
    selected Object, the chosen components of its transformation go into its
    mesh and are set to their initial values. *)
Definition apply_to_object (l r s : bool) (o : ID F V) : ID F V :=
  if is_object o && select o then
    set_transform (if l then zero3 else location o)
                  (if r then zero3 else rotation_euler o)
                  (if s then one3 else scale o) o
  else o.

Definition bake_into (l r s : bool) (ms : list (Mesh F)) (o : ID F V) : list (Mesh F) :=
  match mesh_of o with
  | Some m =>
      if select o
      then alter (add_edit (Baked l r s (location o) (rotation_euler o) (scale o))) m ms
      else ms
  | None => ms
  end.

Definition bpy_ops_object_transform_apply (l r s : bool) : M F V unit :=
  log (Op_transform_apply l r s) ;;
  modify (fun st =>
    with_ids (fmap (apply_to_object l r s))
      (with_meshes (fun ms => foldl (bake_into l r s) ms (ids st)) st)).








End Host.

(** ** The configuration of the module *)

(** Modelled from the spec: the class [Config] (src/utility/Config.py), whose
    accessors the module calls, is not among the sources, and the spec does
    not describe it.  What is modelled is what the class documentation of
    LoaderInterface lists (lines 10-33): the four parameters, their types and
    the default of [cf_apply_transformation].  A parameter that is not set
    is [None], and [has_param] is the test for [Some]. *)
Record Config (V : Type) := mkConfig {
  add_properties : option (list (string * V));
  cf_set_shading : option string;
  cf_set_obj_material : option string;
  cf_apply_transformation : option bool
}.
Arguments mkConfig {V}.
Arguments add_properties {V}.
Arguments cf_set_shading {V}.
Arguments cf_set_obj_material {V}.
Arguments cf_apply_transformation {V}.

(** Modelled from the spec: [config.get_raw_dict(name, fallback)] and
    [config.get_bool(name, fallback)] of the same class, as the value of the
    parameter, or the fallback the caller passes when it is not set. *)
Definition get_raw_dict {V} (param : option (list (string * V)))
    (fallback : list (string * V)) : list (string * V) :=
  default fallback param.

Definition get_bool (param : option bool) (fallback : bool) : bool :=
  default fallback param.

(** ** LoaderInterface *)
Section LoaderInterface.
Context {F V : Type} `{HostMath F}.

(** The external collaborator [src.utility.BlenderUtility.get_bounds]: the
    corners of the bounding box of an object, read from the host. *)
Variable get_bounds : State F V -> nat -> list (vec3 F).

(** lines 97-114 *)
Definition change_shading_mode (objects : list nat) (mode : string) : M F V unit :=
  is_smooth <-
    (if String.eqb (lower mode) "flat" then ret false
     else if String.eqb (lower mode) "smooth" then ret true
     else raise (Exception (msg_unknown_shading mode))) ;;
  for_each objects (fun obj =>
    faces <- obj_data_polygons obj ;;
    for_each faces (fun face => set_use_smooth face is_smooth)).

(** lines 116-132 *)
Definition change_material (objects : list nat) (material_name : string) : M F V unit :=
  loaded <- gets (fun st => materials st !! material_name) ;;
  match loaded with
  | None => raise (Exception (msg_material_not_loaded material_name))
  | Some material =>
      for_each objects (fun obj => set_active_material obj material)
  end.

(** lines 81-95; the body of each loop is given a name, to speak about one
    iteration *)
Definition apply_transformation_step (obj : nat) : M F V unit :=
  select_set obj true ;;
  set_active obj ;;
  bpy_ops_object_transform_apply true true true ;;
  select_set obj false.

Definition apply_transformation_to_objects (objects : list nat) : M F V unit :=
  bpy_ops_object_select_all_DESELECT ;;
  for_each objects apply_transformation_step ;;
  bpy_ops_object_select_all_DESELECT.







(** lines 56-63: one iteration of the loop over [properties.items()] *)
Definition set_custom_property (obj : nat) (item : string * V) : M F V unit :=
  let '(key, value) := item in
  if startswith_cp key then
    let key := str_drop 3 key in
    set_item obj key value
  else
    raise (RuntimeError msg_only_custom_properties).

(** lines 56-63: the loop over [properties.items()] for one object *)
Definition set_custom_properties (obj : nat) (properties : list (string * V)) : M F V unit :=
  for_each properties (set_custom_property obj).

(** lines 65-79: the custom functions, for one object *)
Definition run_custom_functions (config : Config V) (obj : nat) : M F V unit :=
  (* only meshes have polygons/faces *)
  is_mesh <- gets (fun st => is_mesh_object st obj) ;;
  (if is_mesh then
     match cf_set_shading config with       (* has_param, get_string *)
     | Some mode => change_shading_mode [obj] mode
     | None => ret tt
     end ;;
     match cf_set_obj_material config with
     | Some material_name => change_material [obj] material_name
     | None => ret tt
     end
   else ret tt) ;;
  (* only bpy.types.Object have a transformation *)
  is_obj <- gets (fun st => isinstance_Object st obj) ;;
  if is_obj then
    let apply_transformation := get_bool (cf_apply_transformation config) false in
    if apply_transformation then apply_transformation_to_objects [obj]
    else ret tt
  else ret tt.

(** lines 38-79 *)
Definition _set_properties (config : Config V) (objects : list nat) : M F V unit :=
  let properties := get_raw_dict (add_properties config) [] in
  for_each objects (fun obj =>
    set_custom_properties obj properties ;;
    run_custom_functions config obj).

End LoaderInterface.

(** ** Derived notions used in the statements *)
Section Derived.
Context {F V : Type} `{HostMath F}.
Variable get_bounds : State F V -> nat -> list (vec3 F).

(** the mesh datablock behind the reference [obj], if any *)
Definition obj_mesh (st : State F V) (obj : nat) : option nat :=
  match ids st !! obj with Some o => mesh_of o | None => None end.



























(** a mesh all of whose faces have [use_smooth = b] *)
Definition shade_all (b : bool) (me : Mesh F) : Mesh F :=
  mkMesh (replicate (List.length (polygons me)) b) (me_edits me).

(** lines 112-114, for a fixed value of [is_smooth] *)
Definition shade_objects (is_smooth : bool) (objects : list nat) : M F V unit :=
  for_each objects (fun obj =>
    faces <- obj_data_polygons obj ;;
    for_each faces (fun face => set_use_smooth face is_smooth)).

(** the mode is one of the two available ones, compared without case *)
Definition available_mode (mode : string) : bool :=
  caseless_eq mode "FLAT" || caseless_eq mode "SMOOTH".

Definition has_cp_prefix (item : string * V) : bool := startswith_cp item.1.

(** the properties in front of the first key without the prefix *)
Fixpoint cp_prefix_of (properties : list (string * V)) : list (string * V) :=
  match properties with
  | [] => []
  | item :: rest => if has_cp_prefix item then item :: cp_prefix_of rest else []
  end.

(** a datablock after [obj[key[3:]] = value] for each item, in order *)
Definition assign_to (properties : list (string * V)) (o : ID F V) : ID F V :=
  foldl (fun o item => set_custom_prop (str_drop 3 item.1) item.2 o) o properties.

Definition assign_props (obj : nat) (properties : list (string * V))
    (st : State F V) : State F V :=
  with_ids (alter (assign_to properties) obj) st.





End Derived.

(** ** A small scene, to run the model on

    Datablock 0 is a mesh object and datablock 3 another object with the same
    mesh; 1 is an empty; 2 is the material "wood". *)
Definition ex_id (k : id_kind) : ID Q string :=
  mkID k ∅ false None (1, 2, 3)%Q (4, 5, 6)%Q (2, 2, 2)%Q.

Definition ex_state : State Q string :=
  mkState [ex_id (KObject (Some 0)); ex_id (KObject None); ex_id KOther;
           ex_id (KObject (Some 0))]
          [mkMesh [true; false; true] []]
          {["wood" := 2]} None OBJECT [].



Definition ex_config_bad_key : Config string :=
  mkConfig (Some [("cp_category", "chair"); ("name", "stool"); ("cp_room", "kitchen")])
           None None None.

(** * Properties *)

(** ** Strings *)

Lemma nat_of_ascii_lower (a : ascii) :
  nat_of_ascii (ascii_lower a) =
  if ascii_is_upper a then nat_of_ascii a + 32 else nat_of_ascii a.
Proof.
  unfold ascii_lower. destruct (ascii_is_upper a) eqn:E; [|done].
  apply nat_ascii_embedding.
  unfold ascii_is_upper in E. cbn zeta in E.
  apply andb_true_iff in E as [_ E]. apply Nat.leb_le in E. lia.
Qed.

Lemma nat_of_ascii_inj (a b : ascii) : nat_of_ascii a = nat_of_ascii b -> a = b.
Proof.
  intros E. rewrite <- (ascii_nat_embedding a), <- (ascii_nat_embedding b).
  by rewrite E.
Qed.

Lemma ascii_eqb_nat (a b : ascii) :
  Ascii.eqb a b = true <-> nat_of_ascii a = nat_of_ascii b.
Proof.
  rewrite Ascii.eqb_eq. split; [by intros ->|apply nat_of_ascii_inj].
Qed.

Lemma ascii_lower_same_letter (a b : ascii) :
  ascii_lower a = ascii_lower b <-> same_letter a b = true.
Proof.
  unfold same_letter.
  rewrite !orb_true_iff, !andb_true_iff, !ascii_eqb_nat, !nat_of_ascii_lower.
  split.
  - intros E. apply (f_equal nat_of_ascii) in E. rewrite !nat_of_ascii_lower in E.
    revert E. unfold ascii_is_upper. cbn zeta.
    destruct (65 <=? nat_of_ascii a)%nat eqn:A1, (nat_of_ascii a <=? 90)%nat eqn:A2,
             (65 <=? nat_of_ascii b)%nat eqn:B1, (nat_of_ascii b <=? 90)%nat eqn:B2;
      cbn; intros E;
      repeat match goal with
             | X : (_ <=? _)%nat = true |- _ => apply Nat.leb_le in X
             | X : (_ <=? _)%nat = false |- _ => apply Nat.leb_gt in X
             end; first [left; left; lia | left; right; split; [done|lia] | right; split; [done|lia] ].
  - intros E. apply nat_of_ascii_inj. rewrite !nat_of_ascii_lower.
    revert E. unfold ascii_is_upper. cbn zeta.
    destruct (65 <=? nat_of_ascii a)%nat eqn:A1, (nat_of_ascii a <=? 90)%nat eqn:A2,
             (65 <=? nat_of_ascii b)%nat eqn:B1, (nat_of_ascii b <=? 90)%nat eqn:B2;
      cbn; intros E;
      repeat match goal with
             | X : (_ <=? _)%nat = true |- _ => apply Nat.leb_le in X
             | X : (_ <=? _)%nat = false |- _ => apply Nat.leb_gt in X
             end; intuition (try discriminate; lia).
Qed.

Lemma lower_caseless_eq (s t : string) :
  lower s = lower t <-> caseless_eq s t = true.
Proof.
  revert t. induction s as [|a s IH]; intros [|b t]; cbn; try done.
  rewrite andb_true_iff, <- IH, <- ascii_lower_same_letter.
  split; [intros [= ? ?]; done | intros [-> ->]; done].
Qed.

Lemma prefix_str_drop (p key : string) :
  String.prefix p key = true -> key = p +:+ str_drop (String.length p) key.
Proof.
  revert key. induction p as [|a p IH]; intros key E; [done|].
  destruct key as [|b key]; [done|]. simpl in E.
  destruct (Ascii.ascii_dec a b) as [->|]; [|done].
  change (String b key = String b (p +:+ str_drop (String.length p) key)).
  f_equal. by apply IH.
Qed.

Lemma str_drop_cp (key : string) :
  startswith_cp key = true -> key = "cp_" +:+ str_drop 3 key.
Proof. apply (prefix_str_drop "cp_"). Qed.

(** ** Generic facts about the monad and the stores *)
Section Theorems.
Context {F V : Type} `{HostMath F}.
Variable get_bounds : State F V -> nat -> list (vec3 F).

Lemma for_each_total {X} (body : X -> M F V unit) (g : X -> State F V -> State F V) :
  (forall x st, body x st = Return tt (g x st)) ->
  forall xs st, for_each xs body st = Return tt (foldl (fun s x => g x s) st xs).
Proof.
  intros Hb xs. induction xs as [|x xs IH]; intros st; [done|].
  cbn. unfold bind. rewrite Hb. apply IH.
Qed.


(** ** change_material *)




(** ** One iteration of each loop *)


















(** ** The three transform helpers, as state transformers *)




(** ** The log *)











(** ** Selection *)


(** ** Modes *)



(** ** Loops that rewrite one datablock per iteration *)

Lemma foldl_alter_lookup {A} (f : A -> A) (xs : list nat) (l : list A) (i : nat) (a : A) :
  l !! i = Some a ->
  exists n, foldl (fun l x => alter f x l) l xs !! i = Some (Nat.iter n f a)
    /\ (i ∈ xs -> 0 < n) /\ (i ∉ xs -> n = 0).
Proof.
  revert l a. induction xs as [|x xs IH]; intros l a Ha; cbn.
  - exists 0. split; [done|]. split; [|done]. by intros ?%elem_of_nil.
  - destruct (decide (x = i)) as [->|Hne].
    + destruct (IH (alter f i l) (f a)) as (n & E & _ & _).
      { by rewrite list_lookup_alter_eq, Ha. }
      exists (S n). rewrite E. split; [by rewrite Nat.iter_succ_r|].
      split; [lia|]. intros Hn. exfalso. apply Hn. left.
    + destruct (IH (alter f x l) a) as (n & E & Hin & Hout).
      { by rewrite list_lookup_alter_ne. }
      exists n. split; [done|]. split.
      * intros [?|?]%elem_of_cons; [congruence|auto].
      * intros Hn. apply Hout. intros ?. apply Hn. by right.
Qed.











(** ** remove_x_axis_rotation *)




(** ** apply_transformation_to_objects *)











(** ** Relations kept by a computation *)
Section Preserves.
Variable R : State F V -> State F V -> Prop.
Hypothesis R_refl : forall st, R st st.
Hypothesis R_trans : forall st1 st2 st3, R st1 st2 -> R st2 st3 -> R st1 st3.












End Preserves.










(** ** change_shading_mode *)

Lemma set_all_polygons (b : bool) (l : list bool) (n : nat) :
  n <= List.length l ->
  foldl (fun l i => <[i := b]> l) l (seq 0 n) = replicate n b ++ drop n l.
Proof.
  induction n as [|n IH]; intros Hn; [done|].
  rewrite seq_S, foldl_snoc, IH by lia. cbn [Nat.add].
  destruct (lookup_lt_is_Some_2 l n) as [x Hx]; [lia|].
  rewrite insert_app_r_alt by (rewrite length_replicate; lia).
  rewrite length_replicate, Nat.sub_diag, (drop_S l x n Hx).
  change (<[0:=b]> (x :: drop (S n) l)) with ([b] ++ drop (S n) l).
  by rewrite replicate_S_end, <- app_assoc.
Qed.

Lemma foldl_set_polygon (b : bool) (me : Mesh F) :
  foldl (fun me i => set_polygon i b me) me (seq 0 (List.length (polygons me)))
  = shade_all b me.
Proof.
  assert (forall is0 (me0 : Mesh F),
    foldl (fun me i => set_polygon i b me) me0 is0
    = mkMesh (foldl (fun l i => <[i := b]> l) (polygons me0) is0) (me_edits me0)) as E.
  { induction is0 as [|i is0 IH]; intros me0; cbn; [by destruct me0|by rewrite IH]. }
  rewrite E, set_all_polygons by done. unfold shade_all.
  by rewrite drop_all, app_nil_r.
Qed.

Lemma alter_missing {A} (f : A -> A) (i : nat) (l : list A) :
  l !! i = None -> alter f i l = l.
Proof.
  intros Hi. apply list_eq. intros j. rewrite list_lookup_alter.
  destruct (decide (i = j)) as [->|]; [by rewrite Hi|done].
Qed.

Lemma with_meshes_same (f : list (Mesh F) -> list (Mesh F)) (st : State F V) :
  f (meshes st) = meshes st -> with_meshes f st = st.
Proof. intros E. unfold with_meshes. rewrite E. by destruct st. Qed.

Lemma foldl_alter_same_mesh {X} (f : X -> Mesh F -> Mesh F) (m : nat) (xs : list X)
    (st : State F V) :
  foldl (fun s x => with_meshes (alter (f x) m) s) st xs
  = with_meshes (alter (fun me => foldl (fun me x => f x me) me xs) m) st.
Proof.
  revert st. induction xs as [|x xs IH]; intros st; cbn.
  - symmetry. apply with_meshes_same. by apply list_alter_id.
  - rewrite IH. unfold with_meshes. cbn. by rewrite list_alter_alter_eq.
Qed.

Lemma shade_faces (b : bool) (m : nat) (st : State F V) :
  for_each (faces_of st m) (fun face => set_use_smooth face b) st
  = Return tt (with_meshes (alter (shade_all b) m) st).
Proof.
  rewrite (for_each_total _
             (fun face => with_meshes (alter (set_polygon face.2 b) face.1))) by done.
  f_equal. unfold faces_of. destruct (meshes st !! m) as [me|] eqn:E.
  - rewrite foldl_fmap. cbn.
    rewrite (foldl_alter_same_mesh (fun i => set_polygon i b)).
    unfold with_meshes. f_equal. apply list_alter_ext; [|done..].
    intros me' Hme'. rewrite E in Hme'. injection Hme' as <-. apply foldl_set_polygon.
  - cbn. symmetry. apply with_meshes_same. by apply alter_missing.
Qed.

Lemma shade_objects_cons (b : bool) (obj : nat) (objects : list nat) (st : State F V) :
  shade_objects b (obj :: objects) st
  = match obj_mesh st obj with
    | Some m => shade_objects b objects (with_meshes (alter (shade_all b) m) st)
    | None => Raised (AttributeError msg_no_polygons) st
    end.
Proof.
  unfold shade_objects at 1. cbn [for_each]. unfold bind at 1, bind at 1.
  unfold obj_data_polygons, obj_mesh.
  destruct (ids st !! obj) as [o|]; [destruct (mesh_of o) as [m|]|]; try done.
  by rewrite shade_faces.
Qed.

Lemma shade_objects_outcome (b : bool) (objects : list nat) (st : State F V) :
  match shade_objects b objects st with
  | Return _ st' =>
      Forall (fun obj => is_Some (obj_mesh st obj)) objects
      /\ st' = with_meshes (fun ms =>
                 foldl (fun ms m => alter (shade_all b) m ms) ms
                   (omap (obj_mesh st) objects)) st
  | Raised e _ =>
      e = AttributeError msg_no_polygons
      /\ Exists (fun obj => obj_mesh st obj = None) objects
  end.
Proof.
  revert st. induction objects as [|obj objects IH]; intros st.
  - cbn. split; [done|]. by destruct st.
  - rewrite shade_objects_cons. cbn [omap list_omap].
    destruct (obj_mesh st obj) as [m|] eqn:Em.
    + specialize (IH (with_meshes (alter (shade_all b) m) st)).
      destruct (shade_objects b objects _) as [[] st'|e st'].
      * destruct IH as [Hall ->]. split; [|done].
        constructor; [by eexists|done].
      * destruct IH as [-> Hex]. split; [done|]. by right.
    + split; [done|]. by left.
Qed.

Lemma lower_flat (mode : string) :
  String.eqb (lower mode) "flat" = caseless_eq mode "FLAT".
Proof.
  apply eq_true_iff_eq. rewrite String.eqb_eq. apply (lower_caseless_eq mode "FLAT").
Qed.

Lemma lower_smooth (mode : string) :
  String.eqb (lower mode) "smooth" = caseless_eq mode "SMOOTH".
Proof.
  apply eq_true_iff_eq. rewrite String.eqb_eq. apply (lower_caseless_eq mode "SMOOTH").
Qed.

Lemma flat_not_smooth (mode : string) :
  caseless_eq mode "FLAT" = true -> caseless_eq mode "SMOOTH" = false.
Proof.
  rewrite <- lower_flat, <- lower_smooth, String.eqb_eq. by intros ->.
Qed.

Lemma change_shading_mode_unfold (objects : list nat) (mode : string) (st : State F V) :
  change_shading_mode objects mode st
  = if caseless_eq mode "FLAT" then shade_objects false objects st
    else if caseless_eq mode "SMOOTH" then shade_objects true objects st
    else Raised (Exception (msg_unknown_shading mode)) st.
Proof.
  unfold change_shading_mode, bind at 1. rewrite lower_flat, lower_smooth.
  destruct (caseless_eq mode "FLAT"); [done|]. by destruct (caseless_eq mode "SMOOTH").
Qed.

Lemma shade_all_idemp (b : bool) (me : Mesh F) :
  shade_all b (shade_all b me) = shade_all b me.
Proof. unfold shade_all. cbn. by rewrite length_replicate. Qed.

Lemma shade_objects_spec (b : bool) (objects : list nat) (st : State F V) :
  let r := shade_objects b objects st in
  (raises r <-> Exists (fun obj => obj_mesh st obj = None) objects)
  /\ (raises r -> exists st', r = Raised (AttributeError msg_no_polygons) st')
  /\ (forall st', r = Return tt st' ->
        ids st' = ids st
        /\ forall obj m me,
             obj ∈ objects -> obj_mesh st obj = Some m -> meshes st !! m = Some me ->
             meshes st' !! m = Some (shade_all b me)).
Proof.
  cbn zeta. pose proof (shade_objects_outcome b objects st) as Ho.
  destruct (shade_objects b objects st) as [[] st'|e st']; cbn.
  - destruct Ho as [Hall ->]. split; [|split; [done|]].
    + split; [done|]. intros Hex. apply Exists_exists in Hex as (obj & Hin & Hn).
      rewrite Forall_forall in Hall. destruct (Hall obj Hin) as [m Hm]. congruence.
    + intros ? [= <-]. split; [done|]. intros obj m me Hin Hm Hme. cbn.
      destruct (foldl_alter_lookup (shade_all b) (omap (obj_mesh st) objects)
                  (meshes st) m me Hme) as (n & -> & Hpos & _).
      f_equal. destruct n as [|n].
      * exfalso. apply (Nat.lt_irrefl 0), Hpos. apply list_elem_of_omap. by exists obj.
      * clear Hpos. induction n as [|n IH]; [done|].
        rewrite Nat.iter_succ, IH. apply shade_all_idemp.
  - destruct Ho as [-> Hex]. split; [done|]. split; [by eexists|done].
Qed.

(** C2 (amended): change_shading_mode raises its own exception exactly when
    the mode, compared without case, is neither FLAT nor SMOOTH, and then on
    the untouched state.  For an available mode the call fails only at an
    object whose data is not a mesh (with an AttributeError); otherwise it
    returns, and every polygon of the mesh of every object of the list has
    use_smooth true when the mode is SMOOTH and false when it is FLAT. *)
Theorem change_shading_mode_spec (objects : list nat) (mode : string) (st : State F V) :
  let r := change_shading_mode objects mode st in
  ((exists msg st', r = Raised (Exception msg) st') <-> available_mode mode = false)
  /\ (available_mode mode = false -> r = Raised (Exception (msg_unknown_shading mode)) st)
  /\ (available_mode mode = true ->
        (raises r <-> Exists (fun obj => obj_mesh st obj = None) objects)
        /\ (raises r -> exists st', r = Raised (AttributeError msg_no_polygons) st')
        /\ (forall st', r = Return tt st' ->
              ids st' = ids st
              /\ forall obj m me,
                   obj ∈ objects -> obj_mesh st obj = Some m -> meshes st !! m = Some me ->
                   meshes st' !! m = Some (shade_all (caseless_eq mode "SMOOTH") me))).
Proof.
  cbn zeta. rewrite change_shading_mode_unfold. unfold available_mode.
  destruct (caseless_eq mode "FLAT") eqn:Ef; cbn [orb].
  - rewrite (flat_not_smooth mode Ef).
    pose proof (shade_objects_spec false objects st) as (Hr & He & Hp). cbn zeta in *.
    split; [|split; [done|auto]].
    split; [|done]. intros (msg & st' & E). exfalso.
    destruct He as (st'' & E'); [by rewrite E|]. congruence.
  - destruct (caseless_eq mode "SMOOTH") eqn:Es.
    + pose proof (shade_objects_spec true objects st) as (Hr & He & Hp). cbn zeta in *.
      split; [|split; [done|auto]].
      split; [|done]. intros (msg & st' & E). exfalso.
      destruct He as (st'' & E'); [by rewrite E|]. congruence.
    + split; [split; [done|intros ?; by do 2 eexists]|]. split; done.
Qed.

(** ** _set_properties: the custom properties *)

Lemma with_ids_same (f : list (ID F V) -> list (ID F V)) (st : State F V) :
  f (ids st) = ids st -> with_ids f st = st.
Proof. intros E. unfold with_ids. rewrite E. by destruct st. Qed.

Lemma assign_props_nil obj (st : State F V) : assign_props obj [] st = st.
Proof. apply with_ids_same. by apply list_alter_id. Qed.

Lemma assign_props_cons obj (item : string * V) rest (st : State F V) :
  assign_props obj (item :: rest) st
  = assign_props obj rest
      (with_ids (alter (set_custom_prop (str_drop 3 item.1) item.2) obj) st).
Proof.
  unfold assign_props, with_ids. cbn. by rewrite list_alter_alter_eq.
Qed.

Lemma set_custom_properties_cons obj (item : string * V) rest (st : State F V) :
  set_custom_properties obj (item :: rest) st
  = if has_cp_prefix item
    then set_custom_properties obj rest
           (with_ids (alter (set_custom_prop (str_drop 3 item.1) item.2) obj) st)
    else Raised (RuntimeError msg_only_custom_properties) st.
Proof.
  destruct item as [key value]. unfold set_custom_properties at 1, has_cp_prefix.
  cbn [for_each fst snd]. unfold bind, set_custom_property.
  by destruct (startswith_cp key).
Qed.

Lemma set_custom_properties_outcome obj (properties : list (string * V)) (st : State F V) :
  set_custom_properties obj properties st
  = if forallb has_cp_prefix properties
    then Return tt (assign_props obj properties st)
    else Raised (RuntimeError msg_only_custom_properties)
           (assign_props obj (cp_prefix_of properties) st).
Proof.
  revert st. induction properties as [|item rest IH]; intros st.
  - cbn. by rewrite assign_props_nil.
  - rewrite set_custom_properties_cons. cbn [forallb cp_prefix_of].
    destruct (has_cp_prefix item); cbn [andb].
    + by rewrite IH, !assign_props_cons.
    + by rewrite assign_props_nil.
Qed.


Lemma cp_prefix_of_app (pre post : list (string * V)) (item : string * V) :
  Forall (fun item => startswith_cp item.1 = true) pre ->
  startswith_cp item.1 = false ->
  cp_prefix_of (pre ++ item :: post) = pre
  /\ forallb has_cp_prefix (pre ++ item :: post) = false.
Proof.
  intros Hpre Hbad. induction Hpre as [|x pre Hx _ [IH1 IH2]].
  - cbn. unfold has_cp_prefix. by rewrite Hbad.
  - change ((x :: pre) ++ item :: post) with (x :: (pre ++ item :: post)).
    cbn [cp_prefix_of forallb]. rewrite IH1, IH2.
    unfold has_cp_prefix. by rewrite Hx.
Qed.

Lemma str_drop_cp_inj (k1 k2 : string) :
  startswith_cp k1 = true -> startswith_cp k2 = true ->
  str_drop 3 k1 = str_drop 3 k2 -> k1 = k2.
Proof.
  intros H1 H2 E. rewrite (str_drop_cp k1 H1), (str_drop_cp k2 H2). by rewrite E.
Qed.

Lemma custom_props_assign_to (properties : list (string * V)) (o : ID F V) key value :
  Forall (fun item => startswith_cp item.1 = true) properties ->
  NoDup properties.*1 ->
  (key, value) ∈ properties ->
  custom_props (assign_to properties o) !! str_drop 3 key = Some value.
Proof.
  induction properties as [|[k v] rest IH] using rev_ind; intros Hgood Hnd Hin.
  { by apply elem_of_nil in Hin. }
  unfold assign_to. rewrite foldl_snoc. cbn [fst snd custom_props set_custom_prop].
  fold (assign_to rest o).
  apply Forall_app in Hgood as [Hrest Hk].
  assert (startswith_cp k = true) as Hk' by (by inversion Hk).
  rewrite fmap_app in Hnd. apply NoDup_app in Hnd as (Hnd & Hfresh & _).
  apply elem_of_app in Hin as [Hin|Hin].
  - assert (key ≠ k) as Hne.
    { intros ->. apply (Hfresh k); [|cbn; left].
      apply list_elem_of_fmap. by exists (k, value). }
    rewrite lookup_insert_ne; [by apply IH|].
    intros E. apply Hne. symmetry. apply (str_drop_cp_inj k key); [done| |done].
    rewrite Forall_forall in Hrest. apply (Hrest (key, value) Hin).
  - apply list_elem_of_singleton in Hin as [= -> ->]. apply lookup_insert_eq.
Qed.

(** ** _set_properties: the custom functions *)


















Lemma set_properties_cons (config : Config V) (x : nat) (xs : list nat) (st : State F V) :
  _set_properties config (x :: xs) st
  = match set_custom_properties x (get_raw_dict (add_properties config) []) st with
    | Return _ s1 =>
        match run_custom_functions config x s1 with
        | Return _ s2 => _set_properties config xs s2
        | Raised e s => Raised e s
        end
    | Raised e s => Raised e s
    end.
Proof.
  unfold _set_properties. cbn [for_each]. unfold bind.
  destruct (set_custom_properties _ _ _); [|done].
  by destruct (run_custom_functions _ _ _).
Qed.





(** C10: when the first key without the prefix comes after some items with
    it, _set_properties raises the RuntimeError while it handles the first
    object, and the state it leaves is the one in which that object has
    received the items in front of that key: they stay assigned, nothing
    else is changed, nothing is rolled back.  (No object comes before the
    one at which the error is raised.) *)
Theorem set_properties_not_atomic (config : Config V) (obj : nat) (rest : list nat)
    (pre post : list (string * V)) (key : string) (value : V) (st : State F V) :
  get_raw_dict (add_properties config) [] = pre ++ (key, value) :: post ->
  Forall (fun item => startswith_cp item.1 = true) pre ->
  startswith_cp key = false ->
  NoDup pre.*1 ->
  _set_properties config (obj :: rest) st
  = Raised (RuntimeError msg_only_custom_properties) (assign_props obj pre st)
  /\ (forall o, ids st !! obj = Some o ->
        exists o', ids (assign_props obj pre st) !! obj = Some o'
          /\ (forall k v, (k, v) ∈ pre -> custom_props o' !! str_drop 3 k = Some v)
          /\ (forall k, k ∉ (str_drop 3 <$> pre.*1) ->
                custom_props o' !! k = custom_props o !! k))
  /\ (forall i, i <> obj -> ids (assign_props obj pre st) !! i = ids st !! i)
  /\ meshes (assign_props obj pre st) = meshes st
  /\ oplog (assign_props obj pre st) = oplog st.
Proof.
  intros Eprops Hgood Hbad Hnd.
  destruct (cp_prefix_of_app pre post (key, value) Hgood Hbad) as [Epre Efalse].
  split; [|split; [|split; [|done]]].
  - by rewrite set_properties_cons, set_custom_properties_outcome, Eprops, Efalse, Epre.
  - intros o Ho. exists (assign_to pre o). cbn. rewrite list_lookup_alter_eq, Ho.
    split; [done|]. split.
    + intros k v Hin. by apply custom_props_assign_to.
    + intros k Hk. clear Hgood Hnd Eprops Epre Efalse. revert o Ho Hk.
      induction pre as [|[k' v'] pre IH] using rev_ind; intros o Ho Hk; [done|].
      unfold assign_to. rewrite foldl_snoc. cbn [fst snd custom_props set_custom_prop].
      fold (assign_to pre o). rewrite !fmap_app in Hk.
      rewrite lookup_insert_ne.
      * apply IH; [done|]. intros Hin. apply Hk, elem_of_app. by left.
      * intros <-. apply Hk, elem_of_app. right. cbn. left.
  - intros i Hne. cbn. by rewrite list_lookup_alter_ne.
Qed.


(** ** move_obj_origin_to_bottom_mean_point *)


End Theorems.

(** * The statements at work on the small scene *)


(** C2 as stated fails: with the empty in the list, change_shading_mode
    raises although the mode is FLAT. *)
Lemma change_shading_mode_counterexample :
  ~ (raises (change_shading_mode [1] "FLAT" ex_state)
     <-> available_mode "FLAT" = false).
Proof. intros [Hr _]. by specialize (Hr I). Qed.

(** C2 (amended) on the scene: "Smooth" is an available mode, and the faces
    of the mesh shared by objects 0 and 3 all become smooth. *)
Lemma change_shading_mode_spec_witness :
  available_mode "Smooth" = true
  /\ exists st', change_shading_mode [0; 3] "Smooth" ex_state = Return tt st'
       /\ meshes st' !! 0 = Some (mkMesh [true; true; true] []).
Proof.
  destruct (change_shading_mode_spec [0; 3] "Smooth" ex_state) as (_ & _ & Hok).
  destruct (Hok eq_refl) as (_ & _ & Hp).
  split; [reflexivity|]. eexists. split; [vm_compute; reflexivity|].
  apply (proj2 (Hp _ eq_refl) 0 0 (mkMesh [true; false; true] []));
    [apply list_elem_of_here|reflexivity|reflexivity].
Defined.



(** C10 on the scene: the key "name" stops the call at object 0, which keeps
    the property assigned before it. *)
Lemma set_properties_not_atomic_witness :
  exists st', _set_properties ex_config_bad_key [0; 1] ex_state
              = Raised (RuntimeError msg_only_custom_properties) st'
    /\ (map_to_list ∘ custom_props <$> ids st')
       = [[("category", "chair")]; []; []; []].
Proof.
  destruct (set_properties_not_atomic ex_config_bad_key 0 [1]
              [("cp_category", "chair")] [("cp_room", "kitchen")] "name" "stool" ex_state)
    as (E & _).
  - reflexivity.
  - repeat constructor.
  - reflexivity.
  - apply NoDup_singleton.
  - eexists. split; [exact E|]. vm_compute. reflexivity.
Defined.



